(** * swift-cactus: the cactus_util boundary (logging.h, cactus_util.h,
      telemetry_stub.cpp)

    The three source files hold declarations, an enum, the logging macros
    and fifteen functions with empty bodies.  Two views of them are embedded:

    - the behaviour of a call, as a computation over the observable state
      of the process ([World]) that returns, throws or faults ([Proc]);
    - the shape of the declarations (names, types, namespaces, linkage,
      conditional compilation), as the lines of each file with the
      preprocessor's conditional inclusion and the scoping of
      [extern "C"] and [namespace] run over them.  *)

From Stdlib Require Import ZArith Floats.
From stdpp Require Import base strings gmap list.

Local Open Scope string_scope.
Local Open Scope list_scope.

(** ** The observable state of the process *)

(** A pointer value: null, or the address of a block. *)
Inductive ptr : Set :=
| NULL
| Ptr (a : positive).

#[global] Instance ptr_eq_dec : EqDecision ptr.
Proof. solve_decision. Defined.

(** [enum LogLevel] (logging.h, lines 7-12). *)
Inductive LogLevel : Set :=
| LOG_DEBUG
| LOG_INFO
| LOG_WARNING
| LOG_ERROR.

#[global] Instance LogLevel_eq_dec : EqDecision LogLevel.
Proof. solve_decision. Defined.

(** The enumerator values as written in the enum. *)
Definition LogLevel_value (l : LogLevel) : Z :=
  match l with
  | LOG_DEBUG => 0
  | LOG_INFO => 1
  | LOG_WARNING => 2
  | LOG_ERROR => 3
  end.

(** The enumerator names, for comparison with the header's lines. *)
Definition LogLevel_name (l : LogLevel) : string :=
  match l with
  | LOG_DEBUG => "LOG_DEBUG"
  | LOG_INFO => "LOG_INFO"
  | LOG_WARNING => "LOG_WARNING"
  | LOG_ERROR => "LOG_ERROR"
  end.

(** The conversion of an [int] to the enum; no other value names a level. *)
Definition LogLevel_of_value (z : Z) : option LogLevel :=
  match z with
  | 0%Z => Some LOG_DEBUG
  | 1%Z => Some LOG_INFO
  | 2%Z => Some LOG_WARNING
  | 3%Z => Some LOG_ERROR
  | _ => None
  end.

Definition all_levels : list LogLevel :=
  [LOG_DEBUG; LOG_INFO; LOG_WARNING; LOG_ERROR].

(** A log record: the triple a logging call hands to the sink. *)
Record LogRecord : Set := mkLogRecord {
  lr_level : LogLevel;
  lr_tag : string;
  lr_message : string
}.

(** What a caller or an outside observer can see of the process: the live
    heap blocks (each holds a C string), the files, the bytes sent on the
    network, and the log sink ([None]: the sink is unavailable). *)
Record World : Type := mkWorld {
  heap : gmap positive string;
  files : gmap string string;
  network : list string;
  sink : option (list LogRecord)
}.

(** How a call ends: it returns, an exception leaves it, or its behaviour
    is undefined. *)
Inductive Outcome (A : Type) : Type :=
| Returned (a : A)
| Thrown (what : string)
| Fault.

Arguments Returned {A} a.
Arguments Thrown {A} what.
Arguments Fault {A}.

(** A computation of the process. *)
Definition Proc (A : Type) : Type := World → Outcome A * World.

#[global] Instance Proc_ret : MRet Proc := λ A a w, (Returned a, w).

#[global] Instance Proc_bind : MBind Proc := λ A B k c w,
  match c w with
  | (Returned a, w') => k a w'
  | (Thrown e, w') => (Thrown e, w')
  | (Fault, w') => (Fault, w')
  end.

(** [try { c } catch (...) {}]: an exception leaving [c] is dropped. *)
Definition swallow (c : Proc unit) : Proc unit := λ w,
  match c w with
  | (Thrown _, w') => (Returned tt, w')
  | r => r
  end.

(** [true] when the call came back to its caller. *)
Definition returned {A} (r : Outcome A * World) : bool :=
  match r with
  | (Returned _, _) => true
  | _ => false
  end.

(** The heap's primitives.  [alloc] takes a block no live block has;
    [release] gives one back, and is undefined on anything else. *)
Definition alloc (s : string) : Proc ptr := λ w,
  let a := fresh (dom (heap w)) in
  (Returned (Ptr a),
   mkWorld (<[a := s]> (heap w)) (files w) (network w) (sink w)).

Definition release (p : ptr) : Proc unit := λ w,
  match p with
  | Ptr a =>
      match heap w !! a with
      | Some _ =>
          (Returned tt,
           mkWorld (delete a (heap w)) (files w) (network w) (sink w))
      | None => (Fault, w)
      end
  | NULL => (Fault, w)
  end.

(** The sink's primitive: the record is appended, or the write fails. *)
Definition emit (r : LogRecord) : Proc unit := λ w,
  match sink w with
  | Some rs =>
      (Returned tt,
       mkWorld (heap w) (files w) (network w) (Some (rs ++ [r])))
  | None => (Thrown "sink unavailable", w)
  end.

(** ** logging.h *)

(** The message of a logging call, in the representation the caller has:
    line 15 takes a pointer to const char, line 16 a reference to const
    std::string. *)
Inductive Message : Set :=
| RawBytes (s : string)
| StdString (s : string).

Definition message_text (m : Message) : string :=
  match m with
  | RawBytes s => s
  | StdString s => s
  end.

(** Modelled from the spec: the body of the [cactus_log] overload of
    line 15 (message: pointer to const char), which logging.h declares and
    no source file defines.  Spec 4.1: given a level, a tag string and a
    message, "emit the message through a platform-appropriate sink"; "No
    return value; must not throw/fail -- logging failures are
    swallowed". *)
Definition cactus_log_cstr (level : LogLevel) (tag message : string)
  : Proc unit :=
  swallow (emit (mkLogRecord level tag message)).

(** Modelled from the spec: the body of the [cactus_log] overload of
    line 16 (message: reference to const std::string), declared in
    logging.h and defined nowhere in the sources; the same contract of
    spec 4.1 for the "higher-level string type". *)
Definition cactus_log_string (level : LogLevel) (tag message : string)
  : Proc unit :=
  swallow (emit (mkLogRecord level tag message)).

(** Overload resolution on the message's type. *)
Definition cactus_log (level : LogLevel) (tag : string) (message : Message)
  : Proc unit :=
  match message with
  | RawBytes s => cactus_log_cstr level tag s
  | StdString s => cactus_log_string level tag s
  end.

(** The convenience macros (lines 19-23).  A macro is text: what
    [cactus_log] stands for is decided where the expansion lands, so the
    callee is a parameter here. *)
Section macros.
Context {R : Type} (cactus_log : LogLevel → string → Message → R).

Definition LOG_TAG : string := "CactusUtil".
Definition CACTUS_LOG_DEBUG (msg : Message) : R :=
  cactus_log LOG_DEBUG LOG_TAG msg.
Definition CACTUS_LOG_INFO (msg : Message) : R :=
  cactus_log LOG_INFO LOG_TAG msg.
Definition CACTUS_LOG_WARNING (msg : Message) : R :=
  cactus_log LOG_WARNING LOG_TAG msg.
Definition CACTUS_LOG_ERROR (msg : Message) : R :=
  cactus_log LOG_ERROR LOG_TAG msg.
End macros.

(** ** cactus_util.h *)

Section registration.
(** The text of the two results: the spec leaves both formats open. *)
Variable registration_of : string → string.
Variable device_id_of : string → string.

(** Modelled from the spec: the body of [register_app], which
    cactus_util.h declares and the closed binary defines.  Spec 4.2:
    "accepts opaque encrypted payload; returns a newly allocated result
    string"; "Caller must release via free_string". *)
Definition register_app (encrypted_data : string) : Proc ptr :=
  alloc (registration_of encrypted_data).

(** Modelled from the spec: the body of [get_device_id], declared in
    cactus_util.h only.  Spec 4.2: "accepts a token; returns a newly
    allocated device identifier string. Same ownership contract." *)
Definition get_device_id (current_token : string) : Proc ptr :=
  alloc (device_id_of current_token).
End registration.

(** Modelled from the spec: the body of [free_string], declared in
    cactus_util.h only.  Spec 4.2: "releases a string previously returned
    by either function above. Calling it on anything else, or calling it
    twice on the same pointer, is undefined behavior". *)
Definition free_string (str : ptr) : Proc unit := release str.

(** ** Declarations: types, lines, conditional inclusion, linkage *)

(** The types the three files write. *)
Inductive CType : Set :=
| TVoid
| TBool
| TInt
| TDouble
| TChar
| TEnum (name : string)
| TStruct (name : string)
| TStdString
| TConst (t : CType)
| TPointer (t : CType)
| TReference (t : CType).

#[global] Instance CType_eq_dec : EqDecision CType.
Proof. solve_decision. Defined.

(** [const char *] *)
Definition const_char_ptr : CType := TPointer (TConst TChar).

(** A function declarator; [fn_defined] when a body follows it. *)
Record FunDecl : Set := mkFunDecl {
  fn_return : CType;
  fn_name : string;
  fn_params : list CType;
  fn_defined : bool
}.

#[global] Instance FunDecl_eq_dec : EqDecision FunDecl.
Proof. solve_decision. Defined.

(** A line of a source file, as far as the declarations go. *)
Inductive Line : Set :=
| PP_ifdef (macro : string)
| PP_ifndef (macro : string)
| PP_endif
| PP_define (macro : string)
| PP_include (header : string)
| Extern_C_open
| Namespace_open (name : string)
| Block_close
| Struct_forward (name : string)
| Enum_definition (name : string) (enumerators : list (string * Z))
| Function (f : FunDecl).

(** Conditional inclusion.  [D] holds the macros defined so far, [conds]
    the open [#ifdef]/[#ifndef] groups, innermost first; a line counts
    when every open group is taken. *)
Fixpoint preprocess (D : gset string) (conds : list bool) (ls : list Line)
  : list Line :=
  match ls with
  | [] => []
  | l :: ls =>
      let active := forallb id conds in
      match l with
      | PP_ifdef m => preprocess D (bool_decide (m ∈ D) :: conds) ls
      | PP_ifndef m => preprocess D (bool_decide (m ∉ D) :: conds) ls
      | PP_endif => preprocess D (tail conds) ls
      | PP_define m => preprocess (if active then {[m]} ∪ D else D) conds ls
      | PP_include _ => preprocess D conds ls
      | _ => (if active then [l] else []) ++ preprocess D conds ls
      end
  end.

(** The blocks a declaration sits in, innermost first. *)
Inductive Scope : Set :=
| In_extern_C
| In_namespace (name : string).

#[global] Instance Scope_eq_dec : EqDecision Scope.
Proof. solve_decision. Defined.

Inductive Linkage : Set :=
| C_linkage
| Cxx_linkage.

#[global] Instance Linkage_eq_dec : EqDecision Linkage.
Proof. solve_decision. Defined.

(** A C translation unit has C linkage throughout; a C++ one gives C
    linkage inside [extern "C"] and C++ linkage elsewhere. *)
Definition linkage_in (cplusplus : bool) (scopes : list Scope) : Linkage :=
  if cplusplus
  then if bool_decide (In_extern_C ∈ scopes) then C_linkage else Cxx_linkage
  else C_linkage.

(** The enclosing namespaces, outermost first. *)
Fixpoint namespace_path (scopes : list Scope) : list string :=
  match scopes with
  | [] => []
  | In_namespace n :: scopes => namespace_path scopes ++ [n]
  | In_extern_C :: scopes => namespace_path scopes
  end.

(** A function as the linker sees it. *)
Record Symbol : Set := mkSymbol {
  sym_namespace : list string;
  sym_linkage : Linkage;
  sym_decl : FunDecl
}.

#[global] Instance Symbol_eq_dec : EqDecision Symbol.
Proof. solve_decision. Defined.

Definition sym_name (s : Symbol) : string := fn_name (sym_decl s).

(** The functions of the preprocessed lines, each with its scope. *)
Fixpoint declarations (cplusplus : bool) (scopes : list Scope)
  (ls : list Line) : list Symbol :=
  match ls with
  | [] => []
  | Extern_C_open :: ls => declarations cplusplus (In_extern_C :: scopes) ls
  | Namespace_open n :: ls =>
      declarations cplusplus (In_namespace n :: scopes) ls
  | Block_close :: ls => declarations cplusplus (tail scopes) ls
  | Function f :: ls =>
      mkSymbol (namespace_path scopes) (linkage_in cplusplus scopes) f
      :: declarations cplusplus scopes ls
  | _ :: ls => declarations cplusplus scopes ls
  end.

(** The functions a file declares in a build whose predefined macros are
    [D]; a C++ compiler is one that predefines [__cplusplus]. *)
Definition symbols (D : gset string) (file : list Line) : list Symbol :=
  declarations (bool_decide ("__cplusplus" ∈ D)) [] (preprocess D [] file).

(** The name the object file carries: the identifier alone under C
    linkage; under C++ linkage an encoding of namespace, identifier and
    parameter types. *)
Inductive ExportedName : Set :=
| Unmangled (name : string)
| Mangled (namespace : list string) (name : string) (params : list CType).

#[global] Instance ExportedName_eq_dec : EqDecision ExportedName.
Proof. solve_decision. Defined.

Definition exported_name (s : Symbol) : ExportedName :=
  match sym_linkage s with
  | C_linkage => Unmangled (sym_name s)
  | Cxx_linkage =>
      Mangled (sym_namespace s) (sym_name s) (fn_params (sym_decl s))
  end.

(** Types a C caller can write: no reference, no class of the C++
    library. *)
Fixpoint c_compatible (t : CType) : bool :=
  match t with
  | TVoid | TBool | TInt | TDouble | TChar | TEnum _ | TStruct _ => true
  | TStdString => false
  | TConst t => c_compatible t
  | TPointer t => c_compatible t
  | TReference _ => false
  end.

(** What a pointer or reference parameter lets the callee write to:
    nothing when the pointee is const. *)
Definition read_only (t : CType) : bool :=
  match t with
  | TPointer (TConst _) | TReference (TConst _) => true
  | TPointer _ | TReference _ => false
  | _ => true
  end.

(** ** The three files, line by line *)

(** logging.h.  The [#define] lines keep the macro's name, which is all
    conditional inclusion looks at; the replacement lists are the
    definitions of section [macros] above. *)
Definition logging_h : list Line := [
  PP_ifndef "LOGGING_H";
  PP_define "LOGGING_H";
  PP_include "string";
  Enum_definition "LogLevel"
    [("LOG_DEBUG", 0%Z); ("LOG_INFO", 1%Z);
     ("LOG_WARNING", 2%Z); ("LOG_ERROR", 3%Z)];
  Function (mkFunDecl TVoid "cactus_log"
    [TEnum "LogLevel"; const_char_ptr; const_char_ptr] false);
  Function (mkFunDecl TVoid "cactus_log"
    [TEnum "LogLevel"; const_char_ptr; TReference (TConst TStdString)] false);
  PP_define "LOG_TAG";
  PP_define "CACTUS_LOG_DEBUG";
  PP_define "CACTUS_LOG_INFO";
  PP_define "CACTUS_LOG_WARNING";
  PP_define "CACTUS_LOG_ERROR";
  PP_endif
].

(** cactus_util.h.  The opening and the closing brace of [extern "C"] each
    sit in an [#ifdef __cplusplus] group of their own. *)
Definition cactus_util_h : list Line := [
  PP_ifndef "cactus_util_H";
  PP_define "cactus_util_H";
  PP_ifdef "__cplusplus";
  Extern_C_open;
  PP_endif;
  Function (mkFunDecl const_char_ptr "register_app" [const_char_ptr] false);
  Function (mkFunDecl const_char_ptr "get_device_id" [const_char_ptr] false);
  Function (mkFunDecl TVoid "free_string" [const_char_ptr] false);
  PP_ifdef "__ANDROID__";
  Function (mkFunDecl TVoid "set_android_data_directory"
    [const_char_ptr] false);
  PP_endif;
  PP_ifdef "__cplusplus";
  Block_close;
  PP_endif;
  PP_endif
].

(** [const CompletionMetrics&] *)
Definition const_metrics_ref : CType :=
  TReference (TConst (TStruct "CompletionMetrics")).

(** telemetry_stub.cpp. *)
Definition telemetry_stub_cpp : list Line := [
  Namespace_open "cactus";
  Namespace_open "telemetry";
  Struct_forward "CompletionMetrics";
  Function (mkFunDecl TVoid "init"
    [const_char_ptr; const_char_ptr; const_char_ptr] true);
  Function (mkFunDecl TVoid "setEnabled" [TBool] true);
  Function (mkFunDecl TVoid "setCloudDisabled" [TBool] true);
  Function (mkFunDecl TVoid "setTelemetryEnvironment"
    [const_char_ptr; const_char_ptr] true);
  Function (mkFunDecl TVoid "setCloudKey" [const_char_ptr] true);
  Function (mkFunDecl TVoid "recordInit"
    [const_char_ptr; TBool; TDouble; const_char_ptr] true);
  Function (mkFunDecl TVoid "recordCompletion"
    [const_char_ptr; const_metrics_ref] true);
  Function (mkFunDecl TVoid "recordCompletion"
    [const_char_ptr; TBool; TDouble; TDouble; TDouble; TInt; const_char_ptr]
    true);
  Function (mkFunDecl TVoid "recordEmbedding"
    [const_char_ptr; TBool; const_char_ptr] true);
  Function (mkFunDecl TVoid "recordTranscription"
    [const_char_ptr; TBool; TDouble; TDouble; TDouble; TInt; const_char_ptr]
    true);
  Function (mkFunDecl TVoid "recordStreamTranscription"
    [const_char_ptr; TBool; TDouble; TDouble; TDouble; TInt;
     TDouble; TDouble; TDouble; TInt; const_char_ptr] true);
  Function (mkFunDecl TVoid "setStreamMode" [TBool] true);
  Function (mkFunDecl TVoid "markInference" [TBool] true);
  Function (mkFunDecl TVoid "flush" [] true);
  Function (mkFunDecl TVoid "shutdown" [] true);
  Block_close;
  Block_close
].

(** The enums a file defines, with their enumerators. *)
Definition enum_definitions (ls : list Line)
  : list (string * list (string * Z)) :=
  omap (λ l, match l with
             | Enum_definition n es => Some (n, es)
             | _ => None
             end) ls.

(** telemetry_stub.cpp is a C++ source: its compiler predefines
    [__cplusplus], whatever else the build defines. *)
Definition cxx_build (D : gset string) : gset string := {["__cplusplus"]} ∪ D.

Definition telemetry_symbols (D : gset string) : list Symbol :=
  symbols (cxx_build D) telemetry_stub_cpp.

(** The registration surface of a build: what cactus_util.h declares. *)
Definition registration_symbols (D : gset string) : list Symbol :=
  symbols D cactus_util_h.

(** The entry points as the spec lists them (4.3), in its order. *)
Definition spec_entry_points : list string := [
  "init"; "setEnabled"; "setCloudDisabled"; "setTelemetryEnvironment";
  "setCloudKey"; "recordInit"; "recordCompletion"; "recordEmbedding";
  "recordTranscription"; "recordStreamTranscription"; "setStreamMode";
  "markInference"; "flush"; "shutdown"
].

(** The distinct names of a list, each at its first occurrence. *)
Fixpoint distinct (names : list string) : list string :=
  match names with
  | [] => []
  | n :: names => n :: filter (λ m, m ≠ n) (distinct names)
  end.

(** How many declarations of a file carry the name. *)
Definition overloads (name : string) (ss : list Symbol) : nat :=
  length (filter (λ s, sym_name s = name) ss).

(** ** telemetry_stub.cpp: the functions *)

(** The C type of an argument, read off the type of its value here. *)
Class HasCType (A : Type) : Set := ctype : CType.
Arguments ctype A {_}.

Definition ctype_of {A : Type} `{HasCType A} (_ : A) : CType := ctype A.

#[global] Instance ptr_ctype : HasCType ptr := const_char_ptr.
#[global] Instance bool_ctype : HasCType bool := TBool.
#[global] Instance double_ctype : HasCType float := TDouble.
#[global] Instance int_ctype : HasCType Z := TInt.

Module telemetry.
Section stub.

(** [struct CompletionMetrics;] (line 4) names the type and says nothing
    of its members: the functions are written for whatever it is. *)
Context {CompletionMetrics : Type}.

#[local] Instance metrics_ctype : HasCType CompletionMetrics :=
  const_metrics_ref.

(** Lines 6-20: unnamed parameters, empty bodies. *)
Definition init (_ _ _ : ptr) : Proc unit := mret tt.
Definition setEnabled (_ : bool) : Proc unit := mret tt.
Definition setCloudDisabled (_ : bool) : Proc unit := mret tt.
Definition setTelemetryEnvironment (_ _ : ptr) : Proc unit := mret tt.
Definition setCloudKey (_ : ptr) : Proc unit := mret tt.
Definition recordInit (_ : ptr) (_ : bool) (_ : float) (_ : ptr)
  : Proc unit := mret tt.
Definition recordCompletion_metrics (_ : ptr) (_ : CompletionMetrics)
  : Proc unit := mret tt.
Definition recordCompletion (_ : ptr) (_ : bool) (_ _ _ : float) (_ : Z)
  (_ : ptr) : Proc unit := mret tt.
Definition recordEmbedding (_ : ptr) (_ : bool) (_ : ptr)
  : Proc unit := mret tt.
Definition recordTranscription (_ : ptr) (_ : bool) (_ _ _ : float) (_ : Z)
  (_ : ptr) : Proc unit := mret tt.
Definition recordStreamTranscription (_ : ptr) (_ : bool) (_ _ _ : float)
  (_ : Z) (_ _ _ : float) (_ : Z) (_ : ptr) : Proc unit := mret tt.
Definition setStreamMode (_ : bool) : Proc unit := mret tt.
Definition markInference (_ : bool) : Proc unit := mret tt.
Definition flush : Proc unit := mret tt.
Definition shutdown : Proc unit := mret tt.

(** The fifteen functions, in the file's order. *)
Inductive Stub : Set :=
| f_init
| f_setEnabled
| f_setCloudDisabled
| f_setTelemetryEnvironment
| f_setCloudKey
| f_recordInit
| f_recordCompletion_metrics
| f_recordCompletion
| f_recordEmbedding
| f_recordTranscription
| f_recordStreamTranscription
| f_setStreamMode
| f_markInference
| f_flush
| f_shutdown.

Definition all_stubs : list Stub := [
  f_init; f_setEnabled; f_setCloudDisabled; f_setTelemetryEnvironment;
  f_setCloudKey; f_recordInit; f_recordCompletion_metrics;
  f_recordCompletion; f_recordEmbedding; f_recordTranscription;
  f_recordStreamTranscription; f_setStreamMode; f_markInference; f_flush;
  f_shutdown
].

Definition stub_name (f : Stub) : string :=
  match f with
  | f_init => "init"
  | f_setEnabled => "setEnabled"
  | f_setCloudDisabled => "setCloudDisabled"
  | f_setTelemetryEnvironment => "setTelemetryEnvironment"
  | f_setCloudKey => "setCloudKey"
  | f_recordInit => "recordInit"
  | f_recordCompletion_metrics => "recordCompletion"
  | f_recordCompletion => "recordCompletion"
  | f_recordEmbedding => "recordEmbedding"
  | f_recordTranscription => "recordTranscription"
  | f_recordStreamTranscription => "recordStreamTranscription"
  | f_setStreamMode => "setStreamMode"
  | f_markInference => "markInference"
  | f_flush => "flush"
  | f_shutdown => "shutdown"
  end.

(** A call of a stub function with its arguments. *)
Inductive Call : Type :=
| call_init (a b c : ptr)
| call_setEnabled (a : bool)
| call_setCloudDisabled (a : bool)
| call_setTelemetryEnvironment (a b : ptr)
| call_setCloudKey (a : ptr)
| call_recordInit (a : ptr) (b : bool) (c : float) (d : ptr)
| call_recordCompletion_metrics (a : ptr) (m : CompletionMetrics)
| call_recordCompletion (a : ptr) (b : bool) (c d e : float) (f : Z)
    (g : ptr)
| call_recordEmbedding (a : ptr) (b : bool) (c : ptr)
| call_recordTranscription (a : ptr) (b : bool) (c d e : float) (f : Z)
    (g : ptr)
| call_recordStreamTranscription (a : ptr) (b : bool) (c d e : float)
    (f : Z) (g h i : float) (j : Z) (k : ptr)
| call_setStreamMode (a : bool)
| call_markInference (a : bool)
| call_flush
| call_shutdown.

Definition callee (c : Call) : Stub :=
  match c with
  | call_init _ _ _ => f_init
  | call_setEnabled _ => f_setEnabled
  | call_setCloudDisabled _ => f_setCloudDisabled
  | call_setTelemetryEnvironment _ _ => f_setTelemetryEnvironment
  | call_setCloudKey _ => f_setCloudKey
  | call_recordInit _ _ _ _ => f_recordInit
  | call_recordCompletion_metrics _ _ => f_recordCompletion_metrics
  | call_recordCompletion _ _ _ _ _ _ _ => f_recordCompletion
  | call_recordEmbedding _ _ _ => f_recordEmbedding
  | call_recordTranscription _ _ _ _ _ _ _ => f_recordTranscription
  | call_recordStreamTranscription _ _ _ _ _ _ _ _ _ _ _ =>
      f_recordStreamTranscription
  | call_setStreamMode _ => f_setStreamMode
  | call_markInference _ => f_markInference
  | call_flush => f_flush
  | call_shutdown => f_shutdown
  end.

(** The types of the arguments a call passes. *)
Definition argument_types (c : Call) : list CType :=
  match c with
  | call_init a b c => [ctype_of a; ctype_of b; ctype_of c]
  | call_setEnabled a => [ctype_of a]
  | call_setCloudDisabled a => [ctype_of a]
  | call_setTelemetryEnvironment a b => [ctype_of a; ctype_of b]
  | call_setCloudKey a => [ctype_of a]
  | call_recordInit a b c d => [ctype_of a; ctype_of b; ctype_of c; ctype_of d]
  | call_recordCompletion_metrics a m => [ctype_of a; ctype_of m]
  | call_recordCompletion a b c d e f g =>
      [ctype_of a; ctype_of b; ctype_of c; ctype_of d; ctype_of e;
       ctype_of f; ctype_of g]
  | call_recordEmbedding a b c => [ctype_of a; ctype_of b; ctype_of c]
  | call_recordTranscription a b c d e f g =>
      [ctype_of a; ctype_of b; ctype_of c; ctype_of d; ctype_of e;
       ctype_of f; ctype_of g]
  | call_recordStreamTranscription a b c d e f g h i j k =>
      [ctype_of a; ctype_of b; ctype_of c; ctype_of d; ctype_of e;
       ctype_of f; ctype_of g; ctype_of h; ctype_of i; ctype_of j;
       ctype_of k]
  | call_setStreamMode a => [ctype_of a]
  | call_markInference a => [ctype_of a]
  | call_flush => []
  | call_shutdown => []
  end.

(** Running a call: the function it names, on its arguments. *)
Definition exec (c : Call) : Proc unit :=
  match c with
  | call_init a b c => init a b c
  | call_setEnabled a => setEnabled a
  | call_setCloudDisabled a => setCloudDisabled a
  | call_setTelemetryEnvironment a b => setTelemetryEnvironment a b
  | call_setCloudKey a => setCloudKey a
  | call_recordInit a b c d => recordInit a b c d
  | call_recordCompletion_metrics a m => recordCompletion_metrics a m
  | call_recordCompletion a b c d e f g => recordCompletion a b c d e f g
  | call_recordEmbedding a b c => recordEmbedding a b c
  | call_recordTranscription a b c d e f g =>
      recordTranscription a b c d e f g
  | call_recordStreamTranscription a b c d e f g h i j k =>
      recordStreamTranscription a b c d e f g h i j k
  | call_setStreamMode a => setStreamMode a
  | call_markInference a => markInference a
  | call_flush => flush
  | call_shutdown => shutdown
  end.

(** A sequence of calls, one after the other; an exception or a fault
    ends it. *)
Fixpoint run (cs : list Call) : Proc unit :=
  match cs with
  | [] => mret tt
  | c :: cs => exec c ;; run cs
  end.

(** The pointer arguments of a call. *)
Definition pointer_arguments (c : Call) : list ptr :=
  match c with
  | call_init a b c => [a; b; c]
  | call_setTelemetryEnvironment a b => [a; b]
  | call_setCloudKey a => [a]
  | call_recordInit a _ _ d => [a; d]
  | call_recordCompletion_metrics a _ => [a]
  | call_recordCompletion a _ _ _ _ _ g => [a; g]
  | call_recordEmbedding a _ c => [a; c]
  | call_recordTranscription a _ _ _ _ _ g => [a; g]
  | call_recordStreamTranscription a _ _ _ _ _ _ _ _ _ k => [a; k]
  | _ => []
  end.

(** The same call with a null pointer for every pointer argument. *)
Definition null_pointers (c : Call) : Call :=
  match c with
  | call_init _ _ _ => call_init NULL NULL NULL
  | call_setTelemetryEnvironment _ _ => call_setTelemetryEnvironment NULL NULL
  | call_setCloudKey _ => call_setCloudKey NULL
  | call_recordInit _ b c _ => call_recordInit NULL b c NULL
  | call_recordCompletion_metrics _ m => call_recordCompletion_metrics NULL m
  | call_recordCompletion _ b c d e f _ =>
      call_recordCompletion NULL b c d e f NULL
  | call_recordEmbedding _ b _ => call_recordEmbedding NULL b NULL
  | call_recordTranscription _ b c d e f _ =>
      call_recordTranscription NULL b c d e f NULL
  | call_recordStreamTranscription _ b c d e f g h i j _ =>
      call_recordStreamTranscription NULL b c d e f g h i j NULL
  | c => c
  end.

End stub.
Arguments Call : clear implicits.
End telemetry.

(** What a logging call does to the world: the record goes to the sink
    when there is one, and nothing happens otherwise. *)
Definition logged (r : LogRecord) (w : World) : World :=
  match sink w with
  | Some rs => mkWorld (heap w) (files w) (network w) (Some (rs ++ [r]))
  | None => w
  end.

(** ** The C boundary, as spec 6 words it *)

(** The functions spec 4.2 gives an owned string as result. *)
Definition returns_owned_string (name : string) : bool :=
  bool_decide (name ∈ ["register_app"; "get_device_id"]).

(** "exposed with C linkage", with the name unmangled, parameter types a C
    caller can write, and the return type "const char* for owned strings,
    void otherwise". *)
Definition exposed_to_C (s : Symbol) : bool :=
  bool_decide (sym_linkage s = C_linkage)
  && bool_decide (exported_name s = Unmangled (sym_name s))
  && forallb c_compatible (fn_params (sym_decl s))
  && bool_decide (fn_return (sym_decl s)
                  = if returns_owned_string (sym_name s)
                    then const_char_ptr else TVoid).

(** ** What a file leaves to the lines after it *)

(** The macros defined and the groups still open once the preprocessor
    has gone through [ls]: the state [preprocess] carries, at the end. *)
Fixpoint preprocess_state (D : gset string) (conds : list bool)
  (ls : list Line) : gset string * list bool :=
  match ls with
  | [] => (D, conds)
  | l :: ls =>
      let active := forallb id conds in
      match l with
      | PP_ifdef m => preprocess_state D (bool_decide (m ∈ D) :: conds) ls
      | PP_ifndef m => preprocess_state D (bool_decide (m ∉ D) :: conds) ls
      | PP_endif => preprocess_state D (tail conds) ls
      | PP_define m =>
          preprocess_state (if active then {[m]} ∪ D else D) conds ls
      | _ => preprocess_state D conds ls
      end
  end.

(** The blocks still open after the preprocessed lines [ls]: the scope
    [declarations] carries, at the end. *)
Fixpoint scopes_after (scopes : list Scope) (ls : list Line) : list Scope :=
  match ls with
  | [] => scopes
  | Extern_C_open :: ls => scopes_after (In_extern_C :: scopes) ls
  | Namespace_open n :: ls => scopes_after (In_namespace n :: scopes) ls
  | Block_close :: ls => scopes_after (tail scopes) ls
  | _ :: ls => scopes_after scopes ls
  end.

(** The macros logging.h defines: its guard, [LOG_TAG] and the four
    logging macros (lines 2 and 19-23). *)
Definition logging_h_macros : gset string :=
  {["LOGGING_H"; "LOG_TAG"; "CACTUS_LOG_DEBUG"; "CACTUS_LOG_INFO";
    "CACTUS_LOG_WARNING"; "CACTUS_LOG_ERROR"]}.

#[global] Instance Line_eq_dec : EqDecision Line.
Proof. solve_decision. Defined.

(** The line that declares [set_android_data_directory]
    (cactus_util.h, line 18), as a symbol. *)
Definition set_android_data_directory_symbol : Symbol :=
  mkSymbol [] C_linkage
    (mkFunDecl TVoid "set_android_data_directory" [const_char_ptr] false).

(** ** Stub calls among the caller's own code *)

(** A step of a caller: a call of a stub function, or code of its own,
    which may do anything to the world, throw or fault. *)
Inductive Step (CM : Type) : Type :=
| stub_call (c : telemetry.Call CM)
| caller_code (k : Proc unit).

Arguments stub_call {CM} c.
Arguments caller_code {CM} k.

(** The steps in order; an exception or a fault ends the run. *)
Fixpoint run_steps {CM : Type} (ss : list (Step CM)) : Proc unit :=
  match ss with
  | [] => mret tt
  | stub_call c :: ss => telemetry.exec c ;; run_steps ss
  | caller_code k :: ss => k ;; run_steps ss
  end.

(** The same caller with every stub call taken out. *)
Fixpoint without_stub_calls {CM : Type} (ss : list (Step CM))
  : list (Step CM) :=
  match ss with
  | [] => []
  | stub_call _ :: ss => without_stub_calls ss
  | caller_code k :: ss => caller_code k :: without_stub_calls ss
  end.

(** ** Theorems *)

(** C6: the severity levels are exactly DEBUG, INFO, WARNING and ERROR,
    their values are 0, 1, 2 and 3, and the values order them strictly:
    LOG_DEBUG < LOG_INFO < LOG_WARNING < LOG_ERROR. *)
Theorem LogLevel_values_and_order :
  enum_definitions logging_h
  = [("LogLevel",
      (λ l, (LogLevel_name l, LogLevel_value l)) <$> all_levels)] ∧
  (∀ l : LogLevel, l ∈ all_levels) ∧ NoDup all_levels ∧
  LogLevel_value <$> all_levels = [0; 1; 2; 3]%Z ∧
  (∀ z : Z, is_Some (LogLevel_of_value z) ↔ (0 ≤ z ≤ 3)%Z) ∧
  (∀ l : LogLevel, LogLevel_of_value (LogLevel_value l) = Some l) ∧
  (LogLevel_value LOG_DEBUG < LogLevel_value LOG_INFO
   < LogLevel_value LOG_WARNING)%Z ∧
  (LogLevel_value LOG_WARNING < LogLevel_value LOG_ERROR)%Z.
Proof.
  split_and!.
  - reflexivity.
  - intros []; compute_done.
  - compute_done.
  - reflexivity.
  - intros z. split.
    + intros [l Hl]. unfold LogLevel_of_value in Hl.
      repeat case_match; try discriminate; lia.
    + intros Hz. assert (z = 0 ∨ z = 1 ∨ z = 2 ∨ z = 3)%Z as Hc by lia.
      destruct Hc as [-> | [-> | [-> | ->]]]; cbn; eauto.
  - intros []; reflexivity.
  - cbn; lia.
  - cbn; lia.
  - cbn; lia.
Qed.

(** *** The stub functions *)

Lemma exec_no_op {CM : Type} (c : telemetry.Call CM) :
  telemetry.exec c = mret tt.
Proof. destruct c; reflexivity. Qed.

Lemma run_no_op {CM : Type} (cs : list (telemetry.Call CM)) :
  telemetry.run cs = mret tt.
Proof.
  induction cs as [| c cs IH]; [reflexivity |].
  cbn [telemetry.run]. rewrite exec_no_op, IH. reflexivity.
Qed.

(** C1: every telemetry stub entry point, on every argument values, is
    the no-op on the state of the process, and so is every sequence of
    calls: heap, files, network and log sink are as they were. *)
Theorem telemetry_stub_is_no_op {CM : Type} :
  (∀ c : telemetry.Call CM, telemetry.exec c = mret tt) ∧
  (∀ cs : list (telemetry.Call CM), telemetry.run cs = mret tt) ∧
  (∀ (cs : list (telemetry.Call CM)) (w : World),
     telemetry.run cs w = (Returned tt, w)).
Proof.
  split_and!.
  - apply exec_no_op.
  - apply run_no_op.
  - intros cs w. rewrite run_no_op. reflexivity.
Qed.

(** *** Logging *)

Lemma cactus_log_cstr_returns level tag message w :
  cactus_log_cstr level tag message w
  = (Returned tt, logged (mkLogRecord level tag message) w).
Proof.
  unfold cactus_log_cstr, swallow, emit, logged.
  destruct (sink w); reflexivity.
Qed.

Lemma cactus_log_string_returns level tag message w :
  cactus_log_string level tag message w
  = (Returned tt, logged (mkLogRecord level tag message) w).
Proof.
  unfold cactus_log_string, swallow, emit, logged.
  destruct (sink w); reflexivity.
Qed.

Lemma cactus_log_returns level tag message w :
  returned (cactus_log level tag message w) = true.
Proof.
  destruct message as [s | s]; cbn [cactus_log].
  - rewrite cactus_log_cstr_returns. reflexivity.
  - rewrite cactus_log_string_returns. reflexivity.
Qed.

(** C7: for every message, each of the four macros is the call of
    [cactus_log] with the macro's level, the tag "CactusUtil" and the
    message; the call site gives no tag. *)
Theorem logging_macros_expand {R : Type}
  (callee : LogLevel → string → Message → R) (msg : Message) :
  LOG_TAG = "CactusUtil" ∧
  CACTUS_LOG_DEBUG callee msg = callee LOG_DEBUG "CactusUtil" msg ∧
  CACTUS_LOG_INFO callee msg = callee LOG_INFO "CactusUtil" msg ∧
  CACTUS_LOG_WARNING callee msg = callee LOG_WARNING "CactusUtil" msg ∧
  CACTUS_LOG_ERROR callee msg = callee LOG_ERROR "CactusUtil" msg.
Proof. split_and!; reflexivity. Qed.

(** *** Registration *)

Lemma alloc_fresh s w :
  ∃ a, alloc s w = (Returned (Ptr a),
                    mkWorld (<[a := s]> (heap w)) (files w) (network w)
                      (sink w))
       ∧ heap w !! a = None.
Proof.
  exists (fresh (dom (heap w))). split; [reflexivity |].
  apply not_elem_of_dom, is_fresh.
Qed.

Lemma release_alloc s w : (alloc s ≫= release) w = (Returned tt, w).
Proof.
  destruct (alloc_fresh s w) as (a & Halloc & Hfresh).
  unfold mbind, Proc_bind. rewrite Halloc. cbn [release heap].
  rewrite lookup_insert_eq. cbn [files network sink].
  rewrite delete_insert_id by exact Hfresh.
  destruct w; reflexivity.
Qed.

(** Freeing the same pointer a second time is not a return. *)
Lemma free_string_twice_faults s w :
  (p ← alloc s; free_string p;; free_string p) w
  = (Fault, w).
Proof.
  destruct (alloc_fresh s w) as (a & Halloc & Hfresh).
  unfold mbind, Proc_bind. rewrite Halloc.
  unfold free_string. cbn [release heap].
  rewrite lookup_insert_eq. cbn [heap files network sink].
  rewrite lookup_delete_eq, delete_insert_id by exact Hfresh.
  destruct w; reflexivity.
Qed.

(** C5: for every input string, the empty one included, [register_app]
    and [get_device_id] each return a pointer to a block that was not
    live before the call and now holds the result, and [free_string] on
    that pointer returns and leaves the world as it was before the
    allocation: nothing crashed, nothing leaked. *)
Theorem returned_strings_are_owned_and_freed
  (registration_of device_id_of : string → string) (x : string) (w : World) :
  (∃ a w1, register_app registration_of x w = (Returned (Ptr a), w1)
           ∧ heap w !! a = None
           ∧ heap w1 !! a = Some (registration_of x)
           ∧ free_string (Ptr a) w1 = (Returned tt, w)) ∧
  (∃ a w1, get_device_id device_id_of x w = (Returned (Ptr a), w1)
           ∧ heap w !! a = None
           ∧ heap w1 !! a = Some (device_id_of x)
           ∧ free_string (Ptr a) w1 = (Returned tt, w)) ∧
  (register_app registration_of x ≫= free_string) w = (Returned tt, w) ∧
  (get_device_id device_id_of x ≫= free_string) w = (Returned tt, w) ∧
  (register_app registration_of "" ≫= free_string) w = (Returned tt, w) ∧
  (get_device_id device_id_of "" ≫= free_string) w = (Returned tt, w).
Proof.
  assert (∀ s, ∃ a w1, alloc s w = (Returned (Ptr a), w1)
                       ∧ heap w !! a = None
                       ∧ heap w1 !! a = Some s
                       ∧ free_string (Ptr a) w1 = (Returned tt, w)) as Hown.
  { intros s. destruct (alloc_fresh s w) as (a & Halloc & Hfresh).
    eexists a, _. split_and!; [exact Halloc | exact Hfresh | |].
    - cbn [heap]. apply lookup_insert_eq.
    - pose proof (release_alloc s w) as Hrel.
      unfold mbind, Proc_bind in Hrel. rewrite Halloc in Hrel. exact Hrel. }
  split_and!; try apply Hown; apply release_alloc.
Qed.

(** *** Declarations *)

Lemma defined_elsewhere (m g : string) (D : gset string) :
  m ≠ g → bool_decide (m ∈ {[g]} ∪ D) = bool_decide (m ∈ D).
Proof.
  intros Hne. apply bool_decide_ext.
  rewrite elem_of_union, elem_of_singleton.
  split.
  - intros [Heq | Hin]; [congruence | exact Hin].
  - intros Hin; right; exact Hin.
Qed.

(** What cactus_util.h declares, by the three macros it tests. *)
Lemma registration_symbols_unfold (D : gset string) :
  registration_symbols D =
  if bool_decide ("cactus_util_H" ∈ D) then []
  else (mkSymbol [] C_linkage <$>
          [mkFunDecl const_char_ptr "register_app" [const_char_ptr] false;
           mkFunDecl const_char_ptr "get_device_id" [const_char_ptr] false;
           mkFunDecl TVoid "free_string" [const_char_ptr] false])
       ++ (if bool_decide ("__ANDROID__" ∈ D)
           then [mkSymbol [] C_linkage
                   (mkFunDecl TVoid "set_android_data_directory"
                      [const_char_ptr] false)]
           else []).
Proof.
  unfold registration_symbols, symbols, cactus_util_h.
  cbn [preprocess forallb id tail].
  destruct (decide ("cactus_util_H" ∈ D)) as [Hg | Hg].
  - rewrite (bool_decide_eq_false_2 ("cactus_util_H" ∉ D)) by tauto.
    rewrite (bool_decide_eq_true_2 ("cactus_util_H" ∈ D)) by exact Hg.
    cbn [andb]. rewrite ?andb_false_r. reflexivity.
  - rewrite (bool_decide_eq_true_2 ("cactus_util_H" ∉ D)) by exact Hg.
    rewrite (bool_decide_eq_false_2 ("cactus_util_H" ∈ D)) by exact Hg.
    cbn [andb]. rewrite !defined_elsewhere by done. rewrite ?andb_true_r.
    destruct (bool_decide ("__cplusplus" ∈ D)),
      (bool_decide ("__ANDROID__" ∈ D)); reflexivity.
Qed.

(** What logging.h declares. *)
Lemma logging_symbols_unfold (D : gset string) :
  symbols D logging_h =
  if bool_decide ("LOGGING_H" ∈ D) then []
  else mkSymbol []
         (if bool_decide ("__cplusplus" ∈ D) then Cxx_linkage else C_linkage)
       <$> [mkFunDecl TVoid "cactus_log"
              [TEnum "LogLevel"; const_char_ptr; const_char_ptr] false;
            mkFunDecl TVoid "cactus_log"
              [TEnum "LogLevel"; const_char_ptr;
               TReference (TConst TStdString)] false].
Proof.
  unfold symbols, logging_h.
  cbn [preprocess forallb id tail].
  destruct (decide ("LOGGING_H" ∈ D)) as [Hg | Hg].
  - rewrite (bool_decide_eq_false_2 ("LOGGING_H" ∉ D)) by tauto.
    rewrite (bool_decide_eq_true_2 ("LOGGING_H" ∈ D)) by exact Hg.
    reflexivity.
  - rewrite (bool_decide_eq_true_2 ("LOGGING_H" ∉ D)) by exact Hg.
    rewrite (bool_decide_eq_false_2 ("LOGGING_H" ∈ D)) by exact Hg.
    destruct (bool_decide ("__cplusplus" ∈ D)); reflexivity.
Qed.

(** telemetry_stub.cpp tests no macro: every build sees the same file. *)
Lemma telemetry_symbols_any_build (D : gset string) :
  telemetry_symbols D = telemetry_symbols ∅.
Proof.
  unfold telemetry_symbols, symbols, telemetry_stub_cpp, cxx_build.
  rewrite !bool_decide_eq_true_2
    by (apply elem_of_union_l, elem_of_singleton; reflexivity).
  reflexivity.
Qed.

(** C2: the stub defines the fourteen entry points the spec lists and no
    other name, [recordCompletion] twice and every other one once
    (fifteen functions), each with the number of parameters the file
    gives it, and a call passes exactly the declared parameter types. *)
Theorem telemetry_entry_points {CM : Type} (D : gset string) :
  distinct (sym_name <$> telemetry_symbols D) = spec_entry_points ∧
  length spec_entry_points = 14 ∧
  (λ n, overloads n (telemetry_symbols D)) <$> spec_entry_points
  = [1; 1; 1; 1; 1; 1; 2; 1; 1; 1; 1; 1; 1; 1] ∧
  length (telemetry_symbols D) = 15 ∧
  (λ s, (sym_name s, length (fn_params (sym_decl s))))
    <$> telemetry_symbols D
  = [("init", 3); ("setEnabled", 1); ("setCloudDisabled", 1);
     ("setTelemetryEnvironment", 2); ("setCloudKey", 1); ("recordInit", 4);
     ("recordCompletion", 2); ("recordCompletion", 7);
     ("recordEmbedding", 3); ("recordTranscription", 7);
     ("recordStreamTranscription", 11); ("setStreamMode", 1);
     ("markInference", 1); ("flush", 0); ("shutdown", 0)] ∧
  Forall (λ s, fn_defined (sym_decl s) = true
               ∧ sym_namespace s = ["cactus"; "telemetry"])
    (telemetry_symbols D) ∧
  sym_name <$> telemetry_symbols D
  = telemetry.stub_name <$> telemetry.all_stubs ∧
  (∀ c : telemetry.Call CM,
     mkFunDecl TVoid (telemetry.stub_name (telemetry.callee c))
       (telemetry.argument_types c) true
     ∈ sym_decl <$> telemetry_symbols D).
Proof.
  rewrite telemetry_symbols_any_build.
  split_and!; try (vm_compute; reflexivity).
  - vm_compute. repeat constructor.
  - intros c. destruct c; compute_done.
Qed.

(** C4, as the claim has it, fails: [init] of the telemetry stub is a
    function of a registration or telemetry surface and is not exposed
    with C linkage. *)
Lemma telemetry_stub_not_exposed_to_C :
  ¬ (∀ (D : gset string) (s : Symbol),
       s ∈ registration_symbols D ++ telemetry_symbols D →
       exposed_to_C s = true).
Proof.
  intros Hall.
  specialize (Hall ∅
    (mkSymbol ["cactus"; "telemetry"] Cxx_linkage
       (mkFunDecl TVoid "init"
          [const_char_ptr; const_char_ptr; const_char_ptr] true))).
  assert (exposed_to_C
    (mkSymbol ["cactus"; "telemetry"] Cxx_linkage
       (mkFunDecl TVoid "init"
          [const_char_ptr; const_char_ptr; const_char_ptr] true)) = false)
    as Hno by (vm_compute; reflexivity).
  rewrite Hall in Hno; [discriminate |].
  compute_done.
Qed.

(** C4, amended: every registration function a build declares is exposed
    with C linkage, under its unmangled name, with C-compatible parameter
    types, returning [const char *] when the result is an owned string
    and [void] otherwise; the telemetry stub functions are not: they are
    functions of namespace cactus::telemetry with C++ linkage, whose names
    are mangled, all returning [void]. *)
Theorem registration_exposed_to_C_telemetry_not (D : gset string) :
  Forall (λ s, exposed_to_C s = true) (registration_symbols D) ∧
  take 3 (sym_name <$> registration_symbols D)
  = (if bool_decide ("cactus_util_H" ∈ D) then []
     else ["register_app"; "get_device_id"; "free_string"]) ∧
  Forall (λ s, sym_linkage s = Cxx_linkage
               ∧ sym_namespace s = ["cactus"; "telemetry"]
               ∧ exported_name s
                 = Mangled ["cactus"; "telemetry"] (sym_name s)
                     (fn_params (sym_decl s))
               ∧ fn_return (sym_decl s) = TVoid
               ∧ exposed_to_C s = false)
    (telemetry_symbols D) ∧
  length (telemetry_symbols D) = 15.
Proof.
  rewrite telemetry_symbols_any_build, registration_symbols_unfold.
  split_and!.
  - destruct (bool_decide ("cactus_util_H" ∈ D)); [constructor |].
    destruct (bool_decide ("__ANDROID__" ∈ D));
      vm_compute; repeat constructor.
  - destruct (bool_decide ("cactus_util_H" ∈ D)); reflexivity.
  - vm_compute. repeat constructor.
  - vm_compute; reflexivity.
Qed.

(** C8: cactus_util.h declares [set_android_data_directory] exactly in
    the builds that define [__ANDROID__] (and have not seen the header
    before); in every build without [__ANDROID__] the registration
    surface has no such symbol. *)
Theorem set_android_data_directory_gated (D : gset string) :
  ("set_android_data_directory" ∈ sym_name <$> registration_symbols D
   ↔ "__ANDROID__" ∈ D ∧ "cactus_util_H" ∉ D) ∧
  overloads "set_android_data_directory" (registration_symbols D)
  = (if bool_decide ("__ANDROID__" ∈ D ∧ "cactus_util_H" ∉ D)
     then 1 else 0).
Proof.
  rewrite registration_symbols_unfold.
  destruct (decide ("cactus_util_H" ∈ D)) as [Hg | Hg];
    destruct (decide ("__ANDROID__" ∈ D)) as [Ha | Ha].
  all: rewrite ?(bool_decide_eq_true_2 _ Hg), ?(bool_decide_eq_false_2 _ Hg),
         ?(bool_decide_eq_true_2 _ Ha), ?(bool_decide_eq_false_2 _ Ha).
  - split; [| rewrite bool_decide_eq_false_2 by tauto; reflexivity].
    split; [intros Hin; exfalso; revert Hin; compute_done | tauto].
  - split; [| rewrite bool_decide_eq_false_2 by tauto; reflexivity].
    split; [intros Hin; exfalso; revert Hin; compute_done | tauto].
  - split; [| rewrite bool_decide_eq_true_2 by tauto; reflexivity].
    split; [tauto | intros _; compute_done].
  - split; [| rewrite bool_decide_eq_false_2 by tauto; reflexivity].
    split; [intros Hin; exfalso; revert Hin; compute_done | tauto].
Qed.

(** C9: logging.h declares [cactus_log] twice and only twice, the message
    being a [const char *] in one overload and a [const std::string&] in
    the other, behind the same level and tag parameters; every pointer or
    reference parameter is to const, and a call leaves the heap, the
    files and the network as they were. *)
Theorem cactus_log_two_overloads (D : gset string)
  (Hguard : "LOGGING_H" ∉ D) :
(fn_params ∘ sym_decl)
    <$> filter (λ s, sym_name s = "cactus_log") (symbols D logging_h)
  = [[TEnum "LogLevel"; const_char_ptr; const_char_ptr];
     [TEnum "LogLevel"; const_char_ptr; TReference (TConst TStdString)]] ∧
  sym_name <$> symbols D logging_h = ["cactus_log"; "cactus_log"] ∧
  Forall (λ s, Forall (λ t, read_only t = true) (fn_params (sym_decl s)))
    (symbols D logging_h) ∧
  (∀ level tag message w,
     heap (cactus_log level tag message w).2 = heap w
     ∧ files (cactus_log level tag message w).2 = files w
     ∧ network (cactus_log level tag message w).2 = network w).
Proof.
  rewrite logging_symbols_unfold.
  rewrite (bool_decide_eq_false_2 _ Hguard).
  split_and!.
  - destruct (bool_decide ("__cplusplus" ∈ D)); vm_compute; reflexivity.
  - reflexivity.
  - repeat constructor.
  - intros level tag [s | s] w; cbn [cactus_log];
      rewrite ?cactus_log_cstr_returns, ?cactus_log_string_returns;
      unfold logged; destruct (sink w); split_and!; reflexivity.
Qed.

Lemma cactus_log_two_overloads_witness :
  ("LOGGING_H" ∉ ({["__cplusplus"]} : gset string)) ∧
  sym_name <$> symbols {["__cplusplus"]} logging_h
  = ["cactus_log"; "cactus_log"].
Proof.
  split; [compute_done |].
  apply (cactus_log_two_overloads {["__cplusplus"]}). compute_done.
Defined.

(** C3: every telemetry stub call and every logging call returns to its
    caller, with no value, whatever the arguments and the state: none
    throws and none fails; a logging call whose sink is unavailable
    returns all the same.  Every one of these functions is declared
    [void]. *)
Theorem logging_and_telemetry_always_return {CM : Type} :
  (∀ (c : telemetry.Call CM) (w : World),
     telemetry.exec c w = (Returned tt, w)) ∧
  (∀ level tag message w,
     cactus_log level tag message w
     = (Returned tt,
        logged (mkLogRecord level tag (message_text message)) w)) ∧
  (∀ level tag message h f n,
     cactus_log level tag message (mkWorld h f n None)
     = (Returned tt, mkWorld h f n None)) ∧
  (∀ msg w,
     returned (CACTUS_LOG_DEBUG cactus_log msg w) = true
     ∧ returned (CACTUS_LOG_INFO cactus_log msg w) = true
     ∧ returned (CACTUS_LOG_WARNING cactus_log msg w) = true
     ∧ returned (CACTUS_LOG_ERROR cactus_log msg w) = true) ∧
  (∀ D : gset string,
     Forall (λ s, fn_return (sym_decl s) = TVoid)
       (telemetry_symbols D ++ symbols D logging_h)).
Proof.
  assert (∀ level tag message w,
            cactus_log level tag message w
            = (Returned tt,
               logged (mkLogRecord level tag (message_text message)) w))
    as Hlog.
  { intros level tag [s | s] w; cbn [cactus_log message_text].
    - apply cactus_log_cstr_returns.
    - apply cactus_log_string_returns. }
  split_and!.
  - intros c w. rewrite exec_no_op. reflexivity.
  - exact Hlog.
  - intros level tag message h f n. rewrite Hlog. reflexivity.
  - intros msg w. split_and!; apply cactus_log_returns.
  - intros D. apply Forall_app. split.
    + rewrite telemetry_symbols_any_build. vm_compute. repeat constructor.
    + rewrite logging_symbols_unfold.
      destruct (bool_decide ("LOGGING_H" ∈ D)); repeat constructor.
Qed.

(** C10: two calls of the same entry point, whatever their arguments,
    cannot be told apart: same outcome, same state, from every state.
    The outcome does not depend on the state either, so nothing a pointer
    or reference argument points to is read: the call with every pointer
    null behaves as the call itself, and the functions are written for
    any type [CompletionMetrics] whatever. *)
Theorem telemetry_ignores_arguments {CM : Type} (c1 c2 : telemetry.Call CM)
  (Hsame : telemetry.stub_name (telemetry.callee c1)
           = telemetry.stub_name (telemetry.callee c2)) :
  (∀ w, telemetry.exec c1 w = telemetry.exec c2 w) ∧
  (∀ w1 w2, (telemetry.exec c1 w1).1 = (telemetry.exec c2 w2).1) ∧
  (∀ w, telemetry.exec (telemetry.null_pointers c1) w = telemetry.exec c1 w
        ∧ returned (telemetry.exec (telemetry.null_pointers c1) w) = true) ∧
  Forall (λ p, p = NULL)
    (telemetry.pointer_arguments (telemetry.null_pointers c1)) ∧
  Struct_forward "CompletionMetrics" ∈ telemetry_stub_cpp.
Proof.
  split_and!.
  - intros w. rewrite !exec_no_op. reflexivity.
  - intros w1 w2. rewrite !exec_no_op. reflexivity.
  - intros w. rewrite !exec_no_op. split; reflexivity.
  - destruct c1; repeat constructor.
  - apply list_elem_of_In. right; right; left; reflexivity.
Qed.

Lemma telemetry_ignores_arguments_witness :
  telemetry.stub_name
    (telemetry.callee (telemetry.call_recordCompletion_metrics (Ptr 1) 7%nat))
  = telemetry.stub_name
      (telemetry.callee
         (@telemetry.call_recordCompletion nat NULL true 1.5%float
            0.25%float 3%float 42%Z (Ptr 2))) ∧
  telemetry.exec (telemetry.call_recordCompletion_metrics (Ptr 1) 7%nat)
    (mkWorld ∅ ∅ [] None)
  = telemetry.exec
      (@telemetry.call_recordCompletion nat NULL true 1.5%float 0.25%float
         3%float 42%Z (Ptr 2))
      (mkWorld ∅ ∅ [] None).
Proof.
  split; [reflexivity |].
  apply (telemetry_ignores_arguments
           (telemetry.call_recordCompletion_metrics (Ptr 1) 7%nat)
           (@telemetry.call_recordCompletion nat NULL true 1.5%float
              0.25%float 3%float 42%Z (Ptr 2))).
  reflexivity.
Defined.

(** *** Files in sequence *)

(** The preprocessor goes through [l1 ++ l2] as through [l1], then through
    [l2] from the state [l1] left. *)
Lemma preprocess_app (l1 l2 : list Line) (D : gset string)
  (conds : list bool) :
  preprocess D conds (l1 ++ l2)
  = preprocess D conds l1
    ++ preprocess (preprocess_state D conds l1).1
         (preprocess_state D conds l1).2 l2.
Proof.
  revert D conds. induction l1 as [| l l1 IH]; intros D conds.
  - reflexivity.
  - destruct l; cbn [app preprocess preprocess_state];
      rewrite ?IH, ?app_assoc; reflexivity.
Qed.

Lemma declarations_app (cplusplus : bool) (l1 l2 : list Line)
  (scopes : list Scope) :
  declarations cplusplus scopes (l1 ++ l2)
  = declarations cplusplus scopes l1
    ++ declarations cplusplus (scopes_after scopes l1) l2.
Proof.
  revert scopes. induction l1 as [| l l1 IH]; intros scopes.
  - reflexivity.
  - destruct l; cbn [app declarations scopes_after]; rewrite ?IH;
      reflexivity.
Qed.

Lemma defined_already (g : string) (D : gset string) :
  g ∈ D → {[g]} ∪ D = D.
Proof.
  intros Hin. apply subseteq_union_1_L, singleton_subseteq_l. exact Hin.
Qed.

(** The lines of cactus_util.h that reach the compiler. *)
Lemma cactus_util_h_preprocessed (D : gset string) :
  preprocess D [] cactus_util_h =
  if bool_decide ("cactus_util_H" ∈ D) then []
  else (if bool_decide ("__cplusplus" ∈ D) then [Extern_C_open] else [])
       ++ [Function
             (mkFunDecl const_char_ptr "register_app" [const_char_ptr] false);
           Function
             (mkFunDecl const_char_ptr "get_device_id" [const_char_ptr]
                false);
           Function (mkFunDecl TVoid "free_string" [const_char_ptr] false)]
       ++ (if bool_decide ("__ANDROID__" ∈ D)
           then [Function
                   (mkFunDecl TVoid "set_android_data_directory"
                      [const_char_ptr] false)]
           else [])
       ++ (if bool_decide ("__cplusplus" ∈ D) then [Block_close] else []).
Proof.
  unfold cactus_util_h. cbn [preprocess forallb id tail].
  destruct (decide ("cactus_util_H" ∈ D)) as [Hg | Hg].
  - rewrite (bool_decide_eq_false_2 ("cactus_util_H" ∉ D)) by tauto.
    rewrite (bool_decide_eq_true_2 ("cactus_util_H" ∈ D)) by exact Hg.
    cbn [andb]. rewrite ?andb_false_r. reflexivity.
  - rewrite (bool_decide_eq_true_2 ("cactus_util_H" ∉ D)) by exact Hg.
    rewrite (bool_decide_eq_false_2 ("cactus_util_H" ∈ D)) by exact Hg.
    cbn [andb]. rewrite !defined_elsewhere by done. rewrite ?andb_true_r.
    destruct (bool_decide ("__cplusplus" ∈ D)),
      (bool_decide ("__ANDROID__" ∈ D)); reflexivity.
Qed.

(** What cactus_util.h leaves: its guard defined, no group open. *)
Lemma cactus_util_h_state (D : gset string) :
  preprocess_state D [] cactus_util_h = ({["cactus_util_H"]} ∪ D, []).
Proof.
  unfold cactus_util_h. cbn [preprocess_state forallb id tail].
  destruct (decide ("cactus_util_H" ∈ D)) as [Hg | Hg].
  - rewrite (bool_decide_eq_false_2 ("cactus_util_H" ∉ D)) by tauto.
    cbn [andb]. rewrite defined_already by exact Hg. reflexivity.
  - rewrite (bool_decide_eq_true_2 ("cactus_util_H" ∉ D)) by exact Hg.
    reflexivity.
Qed.

Lemma cactus_util_h_scopes (D : gset string) :
  scopes_after [] (preprocess D [] cactus_util_h) = [].
Proof.
  rewrite cactus_util_h_preprocessed.
  destruct (bool_decide ("cactus_util_H" ∈ D)),
    (bool_decide ("__cplusplus" ∈ D)), (bool_decide ("__ANDROID__" ∈ D));
    reflexivity.
Qed.

Lemma symbols_after_cactus_util_h (D : gset string) (rest : list Line) :
  symbols D (cactus_util_h ++ rest)
  = registration_symbols D ++ symbols ({["cactus_util_H"]} ∪ D) rest.
Proof.
  unfold registration_symbols, symbols.
  rewrite preprocess_app, declarations_app, cactus_util_h_state,
    cactus_util_h_scopes.
  cbn [fst snd]. rewrite defined_elsewhere by done. reflexivity.
Qed.

Lemma registration_symbols_guarded (D : gset string) :
  registration_symbols ({["cactus_util_H"]} ∪ D) = [].
Proof.
  rewrite registration_symbols_unfold.
  rewrite bool_decide_eq_true_2
    by (apply elem_of_union_l, elem_of_singleton; reflexivity).
  reflexivity.
Qed.

(** X1: whatever follows cactus_util.h in a translation unit is declared
    as it would be without the header, in a build that has the guard
    defined: the [extern "C"] block and every conditional group the header
    opens are closed by its end, in C and in C++ builds alike. *)
Theorem cactus_util_h_is_self_contained (D : gset string)
  (rest : list Line) :
  symbols D (cactus_util_h ++ rest)
  = registration_symbols D ++ symbols ({["cactus_util_H"]} ∪ D) rest ∧
  preprocess_state D [] cactus_util_h = ({["cactus_util_H"]} ∪ D, []) ∧
  scopes_after [] (preprocess D [] cactus_util_h) = [].
Proof.
  split_and!.
  - apply symbols_after_cactus_util_h.
  - apply cactus_util_h_state.
  - apply cactus_util_h_scopes.
Qed.

(** Macros are only ever added: no line of these files undefines one. *)
Lemma preprocess_state_grows (ls : list Line) (D : gset string)
  (conds : list bool) (m : string) :
  m ∈ D → m ∈ (preprocess_state D conds ls).1.
Proof.
  revert D conds. induction ls as [| l ls IH]; intros D conds Hin.
  - exact Hin.
  - destruct l; cbn [preprocess_state]; apply IH; try exact Hin.
    destruct (forallb id conds); [apply elem_of_union_r |]; exact Hin.
Qed.

(** Behind its guard the header is empty, inside any groups. *)
Lemma cactus_util_h_guarded (D : gset string) (conds : list bool) :
  "cactus_util_H" ∈ D → preprocess D conds cactus_util_h = [].
Proof.
  intros Hg. unfold cactus_util_h. cbn [preprocess forallb id tail].
  rewrite (bool_decide_eq_false_2 ("cactus_util_H" ∉ D)) by tauto.
  cbn [andb]. rewrite ?andb_false_r. reflexivity.
Qed.

(** X2: including cactus_util.h a second time declares nothing, whatever
    lines stand between the two inclusions (no line undefines a macro):
    the translation unit has the surface it had without the second
    inclusion. *)
Theorem cactus_util_h_included_twice (D : gset string)
  (between : list Line) :
  symbols D (cactus_util_h ++ between ++ cactus_util_h)
  = symbols D (cactus_util_h ++ between) ∧
  symbols D (cactus_util_h ++ cactus_util_h) = registration_symbols D ∧
  registration_symbols ({["cactus_util_H"]} ∪ D) = [].
Proof.
  split_and!.
  - rewrite !symbols_after_cactus_util_h. f_equal.
    unfold symbols. rewrite preprocess_app, declarations_app.
    rewrite cactus_util_h_guarded, app_nil_r; [reflexivity |].
    apply preprocess_state_grows, elem_of_union_l, elem_of_singleton.
    reflexivity.
  - rewrite symbols_after_cactus_util_h.
    fold (registration_symbols ({["cactus_util_H"]} ∪ D)).
    rewrite registration_symbols_guarded, app_nil_r. reflexivity.
  - apply registration_symbols_guarded.
Qed.

(** X3: the registration surface of a build depends on two macros only,
    the header's guard and [__ANDROID__]: two builds that agree on them
    declare the same functions with the same linkage and the same
    exported names, so a C caller and a C++ caller bind to the same
    symbols. *)
Theorem registration_surface_same_for_C_and_Cxx (D1 D2 : gset string)
  (Hguard : "cactus_util_H" ∈ D1 ↔ "cactus_util_H" ∈ D2)
  (Handroid : "__ANDROID__" ∈ D1 ↔ "__ANDROID__" ∈ D2) :
  registration_symbols D1 = registration_symbols D2 ∧
  exported_name <$> registration_symbols D1
  = exported_name <$> registration_symbols D2.
Proof.
  assert (registration_symbols D1 = registration_symbols D2) as Heq.
  { rewrite !registration_symbols_unfold.
    rewrite (bool_decide_ext _ _ Hguard), (bool_decide_ext _ _ Handroid).
    reflexivity. }
  split; [exact Heq | rewrite Heq; reflexivity].
Qed.

Lemma registration_surface_same_for_C_and_Cxx_witness :
  exported_name <$> registration_symbols {["__cplusplus"]}
  = exported_name <$> registration_symbols ∅.
Proof.
  apply (registration_surface_same_for_C_and_Cxx {["__cplusplus"]} ∅).
  - split; intros Hin; exfalso; revert Hin; compute_done.
  - split; intros Hin; exfalso; revert Hin; compute_done.
Defined.

(** X4: the [extern "C" {] line and its closing brace reach the compiler
    together, and exactly in the C++ builds that have not seen the header:
    a C compiler never meets either. *)
Theorem extern_C_block_only_for_Cxx (D : gset string) :
  (Extern_C_open ∈ preprocess D [] cactus_util_h
   ↔ "__cplusplus" ∈ D ∧ "cactus_util_H" ∉ D) ∧
  (Block_close ∈ preprocess D [] cactus_util_h
   ↔ "__cplusplus" ∈ D ∧ "cactus_util_H" ∉ D) ∧
  length (filter (λ l, l = Extern_C_open) (preprocess D [] cactus_util_h))
  = length (filter (λ l, l = Block_close) (preprocess D [] cactus_util_h)).
Proof.
  rewrite cactus_util_h_preprocessed.
  destruct (decide ("cactus_util_H" ∈ D)) as [Hg | Hg];
    destruct (decide ("__cplusplus" ∈ D)) as [Hc | Hc].
  all: rewrite ?(bool_decide_eq_true_2 _ Hg), ?(bool_decide_eq_false_2 _ Hg),
         ?(bool_decide_eq_true_2 _ Hc), ?(bool_decide_eq_false_2 _ Hc).
  all: destruct (bool_decide ("__ANDROID__" ∈ D)).
  all: split_and!; try reflexivity.
  all: split;
    [ intros Hin; first [ split; assumption
                        | exfalso; revert Hin; compute_done ]
    | intros [? ?]; first [ contradiction | compute_done ] ].
Qed.

(** X5: defining [__ANDROID__] only adds to the surface: what a build
    declares without it is a prefix of what it declares with it, and the
    one symbol that may come after is [set_android_data_directory]. *)
Theorem android_build_extends_surface (D : gset string) :
  registration_symbols D `prefix_of`
    registration_symbols ({["__ANDROID__"]} ∪ D) ∧
  registration_symbols ({["__ANDROID__"]} ∪ D)
  = take 3 (registration_symbols D)
    ++ (if bool_decide ("cactus_util_H" ∈ D) then []
        else [set_android_data_directory_symbol]).
Proof.
  rewrite !registration_symbols_unfold.
  rewrite defined_elsewhere by done.
  rewrite (bool_decide_eq_true_2 ("__ANDROID__" ∈ {["__ANDROID__"]} ∪ D))
    by (apply elem_of_union_l, elem_of_singleton; reflexivity).
  destruct (bool_decide ("cactus_util_H" ∈ D)),
    (bool_decide ("__ANDROID__" ∈ D)); (split; [| reflexivity]).
  all: first [ exists []; reflexivity
             | exists [set_android_data_directory_symbol]; reflexivity ].
Qed.

(** *** logging.h among other lines *)

Lemma logging_h_preprocessed (D : gset string) :
  preprocess D [] logging_h =
  if bool_decide ("LOGGING_H" ∈ D) then []
  else [Enum_definition "LogLevel"
          [("LOG_DEBUG", 0%Z); ("LOG_INFO", 1%Z);
           ("LOG_WARNING", 2%Z); ("LOG_ERROR", 3%Z)];
        Function (mkFunDecl TVoid "cactus_log"
          [TEnum "LogLevel"; const_char_ptr; const_char_ptr] false);
        Function (mkFunDecl TVoid "cactus_log"
          [TEnum "LogLevel"; const_char_ptr; TReference (TConst TStdString)]
          false)].
Proof.
  unfold logging_h. cbn [preprocess forallb id tail].
  destruct (decide ("LOGGING_H" ∈ D)) as [Hg | Hg].
  - rewrite (bool_decide_eq_false_2 ("LOGGING_H" ∉ D)) by tauto.
    rewrite (bool_decide_eq_true_2 ("LOGGING_H" ∈ D)) by exact Hg.
    reflexivity.
  - rewrite (bool_decide_eq_true_2 ("LOGGING_H" ∉ D)) by exact Hg.
    rewrite (bool_decide_eq_false_2 ("LOGGING_H" ∈ D)) by exact Hg.
    reflexivity.
Qed.

Lemma logging_h_state (D : gset string) :
  preprocess_state D [] logging_h
  = (if bool_decide ("LOGGING_H" ∈ D) then D else logging_h_macros ∪ D, []).
Proof.
  unfold logging_h. cbn [preprocess_state forallb id tail].
  destruct (decide ("LOGGING_H" ∈ D)) as [Hg | Hg].
  - rewrite (bool_decide_eq_false_2 ("LOGGING_H" ∉ D)) by tauto.
    rewrite (bool_decide_eq_true_2 ("LOGGING_H" ∈ D)) by exact Hg.
    reflexivity.
  - rewrite (bool_decide_eq_true_2 ("LOGGING_H" ∉ D)) by exact Hg.
    rewrite (bool_decide_eq_false_2 ("LOGGING_H" ∈ D)) by exact Hg.
    cbn [andb]. f_equal. apply set_eq. intros x. unfold logging_h_macros.
    rewrite !elem_of_union, !elem_of_singleton. tauto.
Qed.

Lemma logging_h_guard_left (D : gset string) :
  "LOGGING_H" ∈ (preprocess_state D [] logging_h).1.
Proof.
  rewrite logging_h_state. cbn [fst].
  destruct (decide ("LOGGING_H" ∈ D)) as [Hg | Hg].
  - rewrite (bool_decide_eq_true_2 _ Hg). exact Hg.
  - rewrite (bool_decide_eq_false_2 _ Hg).
    unfold logging_h_macros.
    rewrite !elem_of_union, !elem_of_singleton. repeat left. reflexivity.
Qed.

Lemma logging_h_guarded (D : gset string) (conds : list bool) :
  "LOGGING_H" ∈ D → preprocess D conds logging_h = [].
Proof.
  intros Hg. unfold logging_h. cbn [preprocess forallb id tail].
  rewrite (bool_decide_eq_false_2 ("LOGGING_H" ∉ D)) by tauto.
  reflexivity.
Qed.

Lemma cplusplus_after_logging_h (D : gset string) :
  bool_decide ("__cplusplus" ∈ (preprocess_state D [] logging_h).1)
  = bool_decide ("__cplusplus" ∈ D).
Proof.
  rewrite logging_h_state. cbn [fst].
  destruct (bool_decide ("LOGGING_H" ∈ D)); [reflexivity |].
  apply bool_decide_ext. unfold logging_h_macros.
  rewrite !elem_of_union, !elem_of_singleton.
  split; [| tauto]. intros [Hm | Hin]; [| exact Hin].
  repeat destruct Hm as [Hm | Hm]; discriminate.
Qed.


(** X7: a second inclusion of logging.h, after any lines (none undefines
    a macro), passes nothing to the compiler: [enum LogLevel] is defined
    once and [cactus_log] declared twice, as in a single inclusion. *)
Theorem logging_h_included_twice (D : gset string) (between : list Line) :
  preprocess D [] (logging_h ++ between ++ logging_h)
  = preprocess D [] (logging_h ++ between) ∧
  enum_definitions (preprocess D [] (logging_h ++ logging_h))
  = enum_definitions (preprocess D [] logging_h) ∧
  length (enum_definitions (preprocess D [] (logging_h ++ logging_h)))
  = (if bool_decide ("LOGGING_H" ∈ D) then 0 else 1).
Proof.
  assert (∀ between,
            preprocess D [] (logging_h ++ between ++ logging_h)
            = preprocess D [] (logging_h ++ between)) as Htwice.
  { intros b. rewrite !preprocess_app.
    rewrite (logging_h_guarded (preprocess_state _ _ b).1), app_nil_r;
      [reflexivity |].
    apply preprocess_state_grows, logging_h_guard_left. }
  pose proof (Htwice []) as Hsame. cbn [app] in Hsame.
  rewrite app_nil_r in Hsame.
  split_and!.
  - apply Htwice.
  - rewrite Hsame. reflexivity.
  - rewrite Hsame, logging_h_preprocessed.
    destruct (bool_decide ("LOGGING_H" ∈ D)); reflexivity.
Qed.

(** *** The stub among other code *)



Lemma run_steps_without_stub_calls {CM : Type} (ss : list (Step CM)) :
  run_steps ss = run_steps (without_stub_calls ss).
Proof.
  induction ss as [| [c | k] ss IH]; cbn [run_steps without_stub_calls].
  - reflexivity.
  - rewrite exec_no_op. exact IH.
  - rewrite IH. reflexivity.
Qed.

(** X9: stub calls can be put anywhere among a caller's own steps, or
    taken out, without any change to what the caller does: same outcome
    (return, exception or fault) and same final state from every state,
    whatever the caller's code is. *)
Theorem stub_calls_can_be_erased {CM : Type} (ss : list (Step CM)) :
  run_steps ss = run_steps (without_stub_calls ss) ∧
  (∀ w, run_steps ss w = run_steps (without_stub_calls ss) w) ∧
  (∀ (cs : list (telemetry.Call CM)) (k : Proc unit) (w : World),
     run_steps ((stub_call <$> cs) ++ caller_code k :: (stub_call <$> cs)) w
     = run_steps (CM:=CM) [caller_code k] w).
Proof.
  split_and!.
  - apply run_steps_without_stub_calls.
  - intros w. rewrite run_steps_without_stub_calls. reflexivity.
  - intros cs k w. rewrite run_steps_without_stub_calls. f_equal. f_equal.
    assert (∀ tl : list (Step CM),
              without_stub_calls ((stub_call <$> cs) ++ tl)
              = without_stub_calls tl) as Hdrop.
    { intros tl. induction cs as [| c cs IH]; [reflexivity | exact IH]. }
    rewrite Hdrop. cbn [without_stub_calls]. f_equal.
    rewrite <- (app_nil_r (stub_call <$> cs)). apply Hdrop.
Qed.

(** X10: the fifteen stub functions export fifteen different names, the
    two [recordCompletion] overloads included; with C linkage on the same
    declarations two of the exported names would be the same. *)
Theorem telemetry_exported_names_distinct (D : gset string) :
  NoDup (exported_name <$> telemetry_symbols D) ∧
  ¬ NoDup ((λ s, exported_name
                   (mkSymbol (sym_namespace s) C_linkage (sym_decl s)))
           <$> telemetry_symbols D).
Proof.
  rewrite telemetry_symbols_any_build. split; compute_done.
Qed.


(** *** The two headers together *)

Lemma registration_symbols_ext (D1 D2 : gset string) :
  ("cactus_util_H" ∈ D1 ↔ "cactus_util_H" ∈ D2) →
  ("__ANDROID__" ∈ D1 ↔ "__ANDROID__" ∈ D2) →
  registration_symbols D1 = registration_symbols D2.
Proof.
  intros Hguard Handroid. rewrite !registration_symbols_unfold.
  rewrite (bool_decide_ext _ _ Hguard), (bool_decide_ext _ _ Handroid).
  reflexivity.
Qed.

Lemma not_a_logging_h_macro (m : string) (D : gset string) :
  m ∉ logging_h_macros → (m ∈ logging_h_macros ∪ D ↔ m ∈ D).
Proof.
  intros Hm. rewrite elem_of_union. tauto.
Qed.

(** X12: the two headers do not depend on each other: included in either
    order they declare the same functions, each header's own in its own
    order, with the linkage they have alone. *)
Theorem headers_in_either_order (D : gset string) :
  symbols D (logging_h ++ cactus_util_h)
  = symbols D logging_h ++ registration_symbols D ∧
  symbols D (cactus_util_h ++ logging_h)
  = registration_symbols D ++ symbols D logging_h ∧
  symbols D (logging_h ++ cactus_util_h)
  ≡ₚ symbols D (cactus_util_h ++ logging_h).
Proof.
  assert (symbols D (logging_h ++ cactus_util_h)
          = symbols D logging_h ++ registration_symbols D) as H1.
  { unfold symbols at 1. rewrite preprocess_app, declarations_app.
    pose proof (cplusplus_after_logging_h D) as Hc.
    rewrite logging_h_state in *. cbn [fst snd] in *.
    fold (symbols D logging_h). f_equal.
    assert (scopes_after [] (preprocess D [] logging_h) = []) as ->.
    { rewrite logging_h_preprocessed.
      destruct (bool_decide ("LOGGING_H" ∈ D)); reflexivity. }
    rewrite <- Hc.
    fold (symbols (if bool_decide ("LOGGING_H" ∈ D) then D
                   else logging_h_macros ∪ D) cactus_util_h).
    fold (registration_symbols (if bool_decide ("LOGGING_H" ∈ D) then D
                                else logging_h_macros ∪ D)).
    destruct (bool_decide ("LOGGING_H" ∈ D)); [reflexivity |].
    apply registration_symbols_ext;
      apply not_a_logging_h_macro; compute_done. }
  assert (symbols D (cactus_util_h ++ logging_h)
          = registration_symbols D ++ symbols D logging_h) as H2.
  { rewrite symbols_after_cactus_util_h. f_equal.
    rewrite !logging_symbols_unfold, !defined_elsewhere by done.
    reflexivity. }
  split_and!; [exact H1 | exact H2 |].
  rewrite H1, H2. apply Permutation_app_comm.
Qed.
